(** * Appian HTML modernizer: suggestion selection and application

    The development has three parts.

    - [Text]: first-occurrence search and replacement on strings, the
      primitive the application engine of the specification is built on.
    - [Engine]: the catalog lookup, [toggle] and [apply] operations of
      sections 4.1 and 4.2 of the specification.  The sources hold no code
      for them: the component posts to [/api/apply-improvements] and calls
      a [toggleImprovement] that is defined nowhere.
    - [HTMLModernizer]: the React component itself as it stands: its state,
      the [analyzeHtml] and [applyImprovements] handlers, the selection
      effect, the card click and the two preview panes, translated from the
      source.

    Beside them stand the rest of the repository's code: [Storefront], the
    handlers of the page script (theme, menu, form validation, cart and
    notifications), and [Scripts], the file check, the [.env] step of the
    setup script and the webpack hook. *)

From Stdlib Require Import String Ascii List Bool Arith Lia.
From Stdlib Require Import Decimal DecimalString DecimalNat FinFun.
Import ListNotations.
Local Open Scope string_scope.

(** ** Improvement records

    The fields the component reads from a record of [data.improvements]:
    [id], [suggestion], [explanation], [original_code], [improved_code],
    [priority] and [category]. *)

Record Improvement : Type := mkImprovement {
  id : string;
  category : string;
  priority : string;
  explanation : string;
  suggestion : string;
  original_code : string;
  improved_code : string
}.

(** ** Text primitives

    Modelled from the spec: the sources hold no text substitution of their
    own (it is the endpoint's work), so "locate the first occurrence" and
    "replace it" of section 4.2 are written out here on strings. *)

Module Text.

(** [skip n s] drops the first [n] characters of [s]. *)
Fixpoint skip (n : nat) (s : string) : string :=
  match n, s with
  | O, _ => s
  | S _, EmptyString => EmptyString
  | S n', String _ s' => skip n' s'
  end.

(** [occurs pat s]: does [pat] occur in [s] at some position? *)
Fixpoint occurs (pat s : string) : bool :=
  prefix pat s ||
  match s with
  | EmptyString => false
  | String _ s' => occurs pat s'
  end.

(** [replace_first pat rep s] scans [s] from the left and replaces the
    leftmost occurrence of [pat] by [rep]; a text without an occurrence is
    returned as it is. *)
Fixpoint replace_first (pat rep s : string) : string :=
  if prefix pat s then rep ++ skip (String.length pat) s
  else
    match s with
    | EmptyString => EmptyString
    | String c s' => String c (replace_first pat rep s')
    end.

End Text.

(** ** Catalog and selection

    The catalog is the array [data.improvements] in provider response
    order.  The selection is the JavaScript object [selectedImprovements]:
    own properties from an improvement id to the record it refers to, kept
    here in insertion order, the order in which [Object.keys] and
    [Object.values] enumerate keys that are not array indices.  (Keys that
    are canonical array indices are enumerated first, in ascending order;
    no statement below depends on the order of enumeration.) *)

Definition Catalog : Type := list Improvement.
Definition Selection : Type := list (string * Improvement).

(** [selectedImprovements[i]] is truthy: the object has the key [i]. *)
Definition selected (i : string) (sel : Selection) : bool :=
  existsb (fun kv => fst kv =? i) sel.

Definition Object_keys (sel : Selection) : list string := map fst sel.
Definition Object_values (sel : Selection) : list Improvement := map snd sel.

(** Two selections are the same set when they have the same members. *)
Definition same_set (s1 s2 : Selection) : Prop :=
  forall i, selected i s1 = selected i s2.

(** ** The engine of sections 4.1 and 4.2 *)

Module Engine.

Inductive Error : Type :=
| UnknownImprovementError.

Inductive Result : Type :=
| Ok (selection' : Selection)
| Err (e : Error).

(** Modelled from the spec: [get(id) -> ImprovementRecord | NotFound] of
    section 4.1, the catalog lookup by id; no catalog module is among the
    sources.  [None] is [NotFound]. *)
Definition get (catalog : Catalog) (i : string) : option Improvement :=
  find (fun r => id r =? i) catalog.

(** Modelled from the spec: the "remove it" of [toggle]: the selection
    without the key [i]. *)
Definition remove (i : string) (sel : Selection) : Selection :=
  filter (fun kv => negb (fst kv =? i)) sel.

(** Modelled from the spec: [toggle(catalog, selection, id)] of section
    4.2; the component's [toggleImprovement] is called by the improvement
    card but not defined in the sources.  "If [id] is present in
    [selection], remove it; otherwise, if [id] exists in [catalog], add it
    (fails with [UnknownImprovementError] if [id] is absent from
    [catalog])." *)
Definition toggle (catalog : Catalog) (sel : Selection) (i : string) : Result :=
  if selected i sel then Ok (remove i sel)
  else
    match get catalog i with
    | Some r => Ok (sel ++ [(i, r)])%list
    | None => Err UnknownImprovementError
    end.

(** Modelled from the spec: the session's current selection after a
    toggle: the new value when the toggle succeeds, the given one when it
    fails ("leaves [selection] unchanged"). *)
Definition selection_after (sel : Selection) (res : Result) : Selection :=
  match res with
  | Ok sel' => sel'
  | Err _ => sel
  end.

(** Modelled from the spec: one step of [apply] on the working text: a
    selected record replaces the first occurrence of its [original_code],
    a record that is not selected leaves the text as it is. *)
Definition substitute (sel : Selection) (text : string) (r : Improvement) : string :=
  if selected (id r) sel
  then Text.replace_first (original_code r) (improved_code r) text
  else text.

(** Modelled from the spec: [apply(original, catalog, selection)] of
    section 4.2; in the sources the substitution is delegated to the
    [/api/apply-improvements] endpoint, whose code is not among them.
    "Start from [original] as the working text.  For each [id] currently in
    [selection], taken in catalog order, locate the first occurrence of that
    record's [originalCode] in the current working text and replace it with
    [improvedCode].  If [originalCode] is not found, skip that record
    silently and continue.  Return the resulting text." *)
Definition apply (original : string) (catalog : Catalog) (sel : Selection) : string :=
  fold_left (substitute sel) catalog original.

(** Modelled from the spec: a toggle history, the session keeping its
    selection when a toggle fails. *)
Definition toggles (catalog : Catalog) (sel : Selection) (ids : list string) : Selection :=
  fold_left (fun s i => selection_after s (toggle catalog s i)) ids sel.

(** The selection refers to records of the catalog only. *)
Definition within (catalog : Catalog) (sel : Selection) : Prop :=
  forall i, selected i sel = true -> get catalog i <> None.

(** The pass of section 4.2 once more, as a relation that follows the
    wording of steps 1 to 4 rule by rule, to compare [apply] with:
    [Pass sel text catalog out] when working through [catalog] from the
    working text [text] ends with [out]. *)
Inductive Pass (sel : Selection) : string -> Catalog -> string -> Prop :=
| Pass_done text :
    Pass sel text [] text
| Pass_unselected text r rest out :
    selected (id r) sel = false ->
    Pass sel text rest out ->
    Pass sel text (r :: rest) out
| Pass_miss text r rest out :
    selected (id r) sel = true ->
    (forall pre post, text <> pre ++ original_code r ++ post) ->
    Pass sel text rest out ->
    Pass sel text (r :: rest) out
| Pass_replace text r rest out pre post :
    selected (id r) sel = true ->
    text = pre ++ original_code r ++ post ->
    (forall pre' post', text = pre' ++ original_code r ++ post' ->
                        String.length pre <= String.length pre') ->
    Pass sel (pre ++ improved_code r ++ post) rest out ->
    Pass sel text (r :: rest) out.

End Engine.

(** ** The component [HTMLModernizer] *)

Module HTMLModernizer.

(** What an awaited request settles to, as far as the handlers can tell:
    [fetch] rejects, [response.json()] rejects, the body parses to [null]
    (reading a property of it throws a [TypeError]), or the body parses to
    some other JSON value, carried here as the one property the handler
    reads from it ([None] when the property is [undefined] or [null]).
    The HTTP status is never inspected. *)
Inductive Response (A : Type) : Type :=
| FetchRejected
| JsonRejected
| JsonNull
| Json (field : option A).

Arguments FetchRejected {A}.
Arguments JsonRejected {A}.
Arguments JsonNull {A}.
Arguments Json {A} field.

(** The nine [useState] cells of the component, and the browser console the
    handlers write to. *)
Record State : Type := mkState {
  html : string;
  improvements : option Catalog;
  selectedImprovements : Selection;
  isAnalyzing : bool;
  currentPreview : string;
  activeTab : string;
  previewMode : string;
  improvedHtml : option string;
  hoveredImprovement : option string;
  console : list string
}.

Definition initialState : State :=
  {| html := "";
     improvements := None;
     selectedImprovements := [];
     isAnalyzing := false;
     currentPreview := "original";
     activeTab := "editor";
     previewMode := "split";
     improvedHtml := Some "";
     hoveredImprovement := None;
     console := [] |}.

Definition setHtml (v : string) (st : State) : State :=
  mkState v (improvements st) (selectedImprovements st) (isAnalyzing st)
          (currentPreview st) (activeTab st) (previewMode st)
          (improvedHtml st) (hoveredImprovement st) (console st).

Definition setImprovements (v : option Catalog) (st : State) : State :=
  mkState (html st) v (selectedImprovements st) (isAnalyzing st)
          (currentPreview st) (activeTab st) (previewMode st)
          (improvedHtml st) (hoveredImprovement st) (console st).

Definition setSelectedImprovements (v : Selection) (st : State) : State :=
  mkState (html st) (improvements st) v (isAnalyzing st)
          (currentPreview st) (activeTab st) (previewMode st)
          (improvedHtml st) (hoveredImprovement st) (console st).

Definition setIsAnalyzing (v : bool) (st : State) : State :=
  mkState (html st) (improvements st) (selectedImprovements st) v
          (currentPreview st) (activeTab st) (previewMode st)
          (improvedHtml st) (hoveredImprovement st) (console st).

Definition setImprovedHtml (v : option string) (st : State) : State :=
  mkState (html st) (improvements st) (selectedImprovements st) (isAnalyzing st)
          (currentPreview st) (activeTab st) (previewMode st)
          v (hoveredImprovement st) (console st).

Definition setHoveredImprovement (v : option string) (st : State) : State :=
  mkState (html st) (improvements st) (selectedImprovements st) (isAnalyzing st)
          (currentPreview st) (activeTab st) (previewMode st)
          (improvedHtml st) v (console st).

(** [console.error(msg, error)]: a line on the console, no state cell. *)
Definition console_error (msg : string) (st : State) : State :=
  mkState (html st) (improvements st) (selectedImprovements st) (isAnalyzing st)
          (currentPreview st) (activeTab st) (previewMode st)
          (improvedHtml st) (hoveredImprovement st) (console st ++ [msg])%list.

(** [analyzeHtml], in the two halves around its [await]: the flag is raised
    before the request, and when the request settles either
    [data.improvements] is stored or the [catch] block logs; [finally]
    lowers the flag. *)
Definition analyzeHtml_begin (st : State) : State :=
  setIsAnalyzing true st.

Definition analyzeHtml_settle (resp : Response Catalog) (st : State) : State :=
  setIsAnalyzing false
    match resp with
    | Json data_improvements => setImprovements data_improvements st
    | FetchRejected | JsonRejected | JsonNull =>
        console_error "Analysis failed:" st
    end.

Definition analyzeHtml (st : State) (resp : Response Catalog) : State :=
  analyzeHtml_settle resp (analyzeHtml_begin st).

(** The [catch] block of a handler runs exactly for these outcomes. *)
Definition throws {A : Type} (resp : Response A) : bool :=
  match resp with
  | Json _ => false
  | FetchRejected | JsonRejected | JsonNull => true
  end.

(** [applyImprovements], once its request has settled: [data.improved_html]
    is stored, or the [catch] block logs. *)
Definition applyImprovements_settle (resp : Response string) (st : State) : State :=
  match resp with
  | Json data_improved_html => setImprovedHtml data_improved_html st
  | FetchRejected | JsonRejected | JsonNull =>
      console_error "Failed to apply improvements:" st
  end.

(** The catalog a toggle resolves ids against: no cards are rendered while
    [improvements] is [null]. *)
Definition catalog_of (st : State) : Catalog :=
  match improvements st with
  | Some catalog => catalog
  | None => []
  end.

(** [disabled={!html || isAnalyzing}] on the analyze button. *)
Definition analyzeDisabled (st : State) : bool :=
  (html st =? "") || isAnalyzing st.

(** What the user does, each with what its request (if any) settles to. *)
Inductive Event : Type :=
| Edit (text : string)
| Analyze (resp : Response Catalog)
| Toggle (i : string)
| Hover (i : option string).

Section Endpoint.

(** The [/api/apply-improvements] endpoint: what a request with the body
    [{ html, improvements }] settles to. *)
Variable endpoint : string -> list Improvement -> Response string.

(** [applyImprovements]: the request carries the current [html] and
    [Object.values(selectedImprovements)]. *)
Definition applyImprovements (st : State) : State :=
  applyImprovements_settle
    (endpoint (html st) (Object_values (selectedImprovements st))) st.

(** The effect on [[selectedImprovements]]:
    [if (Object.keys(selectedImprovements).length > 0) applyImprovements()]. *)
Definition selectionEffect (st : State) : State :=
  if Nat.ltb 0 (List.length (Object_keys (selectedImprovements st)))
  then applyImprovements st
  else st.

End Endpoint.

(** [onClick={() => toggleImprovement(improvement.id)}]: the sources call
    [toggleImprovement] and define it nowhere, and nothing in them calls
    [setSelectedImprovements].  As the component stands, the click throws a
    [ReferenceError], which the browser reports on the console; no state
    cell is written, so no effect runs. *)
Definition toggleImprovement (i : string) (st : State) : State :=
  console_error "ReferenceError: toggleImprovement is not defined" st.

(** One event of the session.  [endpoint] is what an apply request would
    settle to; the effect that sends one runs when [selectedImprovements]
    has been set, which no handler of the component as it stands does. *)
Definition step
    (endpoint : string -> list Improvement -> Response string)
    (st : State) (ev : Event) : State :=
  match ev with
  | Edit text => setHtml text st
  | Analyze resp => if analyzeDisabled st then st else analyzeHtml st resp
  | Toggle i => toggleImprovement i st
  | Hover i => setHoveredImprovement i st
  end.

Definition run
    (endpoint : string -> list Improvement -> Response string)
    (st : State) (evs : list Event) : State :=
  fold_left (step endpoint) evs st.


(** [srcDoc={improvedHtml || html}]: the empty string, [undefined] and
    [null] are the falsy values [improvedHtml] can take. *)
Definition improvedSrcDoc (st : State) : string :=
  match improvedHtml st with
  | Some doc => if doc =? "" then html st else doc
  | None => html st
  end.

(** The property names every plain object inherits from
    [Object.prototype]; each holds a truthy value. *)
Definition inheritedProperty (i : string) : bool :=
  existsb (String.eqb i)
    [ "constructor"; "hasOwnProperty"; "isPrototypeOf";
      "propertyIsEnumerable"; "toLocaleString"; "toString"; "valueOf";
      "__proto__"; "__defineGetter__"; "__defineSetter__";
      "__lookupGetter__"; "__lookupSetter__" ].

(** [selectedImprovements[improvement.id]] as the card tests it: truthy for
    an own key (its value is a record) and for an inherited property, the
    state being a plain [{}]. *)
Definition checked (i : string) (sel : Selection) : bool :=
  selected i sel || inheritedProperty i.

(** What the component renders from its state: the textarea, the analyze
    button, the improvement cards (each with its check mark), and the two
    preview panes, an absent pane being [None]. *)
Record View : Type := mkView {
  textarea : string;
  analyzeButtonDisabled : bool;
  analyzeButtonBusy : bool;
  cards : option (list (Improvement * bool));
  originalPane : option string;
  improvedPane : option (nat * string)
}.

Definition render (st : State) : View :=
  {| textarea := html st;
     analyzeButtonDisabled := analyzeDisabled st;
     analyzeButtonBusy := isAnalyzing st;
     cards :=
       match improvements st with
       | Some catalog =>
           Some (map (fun r => (r, checked (id r) (selectedImprovements st)))
                     catalog)
       | None => None
       end;
     originalPane :=
       if (activeTab st =? "preview") &&
          ((previewMode st =? "split") || (currentPreview st =? "original"))
       then Some (html st) else None;
     improvedPane :=
       if (activeTab st =? "preview") &&
          ((previewMode st =? "split") || (currentPreview st =? "improved"))
       then Some (List.length (Object_keys (selectedImprovements st)),
                  improvedSrcDoc st)
       else None |}.

(** Modelled from the spec: the [/api/apply-improvements] endpoint, whose
    code is not among the sources, as section 6 describes it: "input =
    source text + list of selected ImprovementRecord (by value); output = a
    single transformed document string", with the replace-first-occurrence
    and skip-on-miss semantics of section 4.2 over the records received. *)
Definition apply_improvements_endpoint
    (source : string) (records : list Improvement) : Response string :=
  Json (Some (fold_left
                (fun text r =>
                   Text.replace_first (original_code r) (improved_code r) text)
                records source)).

End HTMLModernizer.

(** ** Sample data

    The records of the examples of section 8 of the specification. *)

Module Sample.

(** [r1] of the first example: the paragraph gains a class. *)
Definition intro : Improvement :=
  {| id := "r1"; category := "semantics"; priority := "medium";
     explanation := "The paragraph opens the page.";
     suggestion := "Mark the paragraph as the intro.";
     original_code := "<p>Hi</p>";
     improved_code := "<p class='intro'>Hi</p>" |}.



(** A second record that reuses the id [r1]. *)
Definition intro_again : Improvement :=
  {| id := "r1"; category := "accessibility"; priority := "high";
     explanation := ""; suggestion := "Use a heading.";
     original_code := "<p>"; improved_code := "<h1>" |}.

(** A record of a later analysis pass. *)
Definition heading : Improvement :=
  {| id := "r7"; category := "semantics"; priority := "high";
     explanation := ""; suggestion := "Use a heading.";
     original_code := "<p>Hi</p>"; improved_code := "<h1>Hi</h1>" |}.

(** The session after pasting [<p>Hi</p>] and a successful analysis that
    returned the one record [intro]. *)
Definition analyzed : HTMLModernizer.State :=
  HTMLModernizer.run HTMLModernizer.apply_improvements_endpoint
    HTMLModernizer.initialState
    [HTMLModernizer.Edit "<p>Hi</p>";
     HTMLModernizer.Analyze (HTMLModernizer.Json (Some [intro]))].

(** A session in which [r1] is selected and its application has answered,
    as a toggle handler would leave it. *)
Definition chosen : HTMLModernizer.State :=
  {| HTMLModernizer.html := "<p>Hi</p>";
     HTMLModernizer.improvements := Some [intro];
     HTMLModernizer.selectedImprovements := [("r1", intro)];
     HTMLModernizer.isAnalyzing := false;
     HTMLModernizer.currentPreview := "original";
     HTMLModernizer.activeTab := "editor";
     HTMLModernizer.previewMode := "split";
     HTMLModernizer.improvedHtml := Some "<p class='intro'>Hi</p>";
     HTMLModernizer.hoveredImprovement := None;
     HTMLModernizer.console := [] |}.

End Sample.

(** ** JavaScript objects as property lists

    An object with string keys and string values ([element.style], the
    webpack alias table): assigning to an existing key replaces its value
    where it stands, assigning to a new key appends it. *)

Module Props.

Definition Obj : Type := list (string * string).

Fixpoint get (k : string) (o : Obj) : option string :=
  match o with
  | [] => None
  | (k', v) :: rest => if k' =? k then Some v else get k rest
  end.

Fixpoint set (k v : string) (o : Obj) : Obj :=
  match o with
  | [] => [(k, v)]
  | (k', v') :: rest =>
      if k' =? k then (k, v) :: rest else (k', v') :: set k v rest
  end.

End Props.

(** ** The page script [Untitled-2.js]

    Each handler is modelled on the globals it uses and the part of the
    document it reads or writes.  Style values and [innerHTML] are the
    strings the script assigns. *)

Module Storefront.

(** How a handler ends: it returns a value, or a statement throws (a
    [TypeError] on reading a property of [null]) and the rest is not run. *)
Inductive Completion (A : Type) : Type :=
| Returns (v : A)
| Throws.

Arguments Returns {A} v.
Arguments Throws {A}.

(** The double quote and the line feed of the template literals. *)
Definition dq : string := String "034"%char EmptyString.
Definition nl : string := String "010"%char EmptyString.

(** *** [toggleTheme] *)

(** The global [currentTheme], the two properties written on
    [document.body.style], and [style.borderColor] of every [div] of the
    document, in document order. *)
Record Theme : Type := mkTheme {
  currentTheme : string;
  body_backgroundColor : string;
  body_color : string;
  allDivs_borderColor : list string
}.

Definition toggleTheme (s : Theme) : Theme :=
  if currentTheme s =? "light"
  then mkTheme "dark" "#333" "#fff"
               (map (fun _ => "#fff") (allDivs_borderColor s))
  else mkTheme "light" "#fff" "#333"
               (map (fun _ => "#333") (allDivs_borderColor s)).

(** *** [toggleMenu] *)

(** The global [isMenuOpen] and [style.left] of the element with id
    [menu]; [None] when [document.getElementById('menu')] is [null]. *)
Record Menu : Type := mkMenu {
  isMenuOpen : bool;
  menu_left : option string
}.

Definition toggleMenu (s : Menu) : Completion unit * Menu :=
  match menu_left s with
  | None => (Throws, s)
  | Some _ =>
      if isMenuOpen s
      then (Returns tt, mkMenu false (Some "-200px"))
      else (Returns tt, mkMenu true (Some "0px"))
  end.

(** *** [showModal] and [validateForm] *)

(** The global [userData], the [innerHTML] of the modal [div]s appended to
    the body, oldest first, and the [value] of the inputs with ids [name],
    [email] and [phone] ([None] for an input that is not in the
    document). *)
Record Form : Type := mkForm {
  userData : option (string * string * string);
  modals : list string;
  name_value : option string;
  email_value : option string;
  phone_value : option string
}.

Definition modalMarkup (message : string) : string :=
  message ++ "<br><button onclick=" ++ dq ++ "this.parentElement.remove()"
          ++ dq ++ ">Close</button>".

Definition showModal (message : string) (s : Form) : Form :=
  mkForm (userData s) (modals s ++ [modalMarkup message])%list
         (name_value s) (email_value s) (phone_value s).

Definition setUserData (v : string * string * string) (s : Form) : Form :=
  mkForm (Some v) (modals s) (name_value s) (email_value s) (phone_value s).

(** [s.length]: the number of UTF-16 code units of a JavaScript string,
    which is held here as the bytes of its UTF-8 encoding.  A character of
    one, two or three bytes is one unit, a character of four bytes is two (a
    surrogate pair); [pending] counts the bytes still to come of the
    character being read, [bonus] is the second unit of a four-byte
    character, counted at its second byte. *)
Fixpoint utf16_units (pending bonus : nat) (s : string) : nat :=
  match s with
  | EmptyString => 0
  | String c rest =>
      match pending with
      | S p => bonus + utf16_units p 0 rest
      | O =>
          let b := nat_of_ascii c in
          if Nat.ltb b 192 then 1 + utf16_units 0 0 rest
          else if Nat.ltb b 224 then 1 + utf16_units 1 0 rest
          else if Nat.ltb b 240 then 1 + utf16_units 2 0 rest
          else 1 + utf16_units 3 1 rest
      end
  end.

Definition js_length (s : string) : nat := utf16_units 0 0 s.

Definition validateForm (s : Form) : Completion bool * Form :=
  match name_value s, email_value s, phone_value s with
  | Some name, Some email, Some phone =>
      if Nat.ltb (js_length name) 2
      then (Returns false, showModal "Name too short!" s)
      else if negb (Text.occurs "@" email)
      then (Returns false, showModal "Invalid email!" s)
      else if negb (Nat.eqb (js_length phone) 10)
      then (Returns false, showModal "Phone must be 10 digits!" s)
      else (Returns true,
            showModal "Success!" (setUserData (name, email, phone) s))
  | _, _, _ => (Throws, s)
  end.

(** *** The cart and the notifications *)

(** An element the script creates or looks up: its identity, its inline
    style and its [innerHTML]. *)
Record Element : Type := mkElement {
  node : nat;
  style : Props.Obj;
  innerHTML : string
}.

(** The globals [cartItems] and [notifications], the element with id
    [cart] ([None] when there is none), the notification [div]s attached to
    the body in the order they were appended, the pending [setTimeout]
    callbacks (each closes over its own [notifDiv]; all have the same delay,
    so they fire oldest first), and the next fresh element identity. *)
Record Shop : Type := mkShop {
  cartItems : list string;
  notifications : list string;
  cart : option Element;
  notifDivs : list Element;
  timeouts : list nat;
  next_node : nat
}.

(** [n + 'px'] for a number [n]. *)
Definition px (n : nat) : string :=
  NilEmpty.string_of_uint (Nat.to_uint n) ++ "px".

Definition addNotification (text : string) (s : Shop) : Shop :=
  let notifications' := (notifications s ++ [text])%list in
  let notifDiv :=
    mkElement (next_node s)
      (Props.set "border" "1px solid black"
        (Props.set "padding" "10px"
          (Props.set "backgroundColor" "yellow"
            (Props.set "right" "20px"
              (Props.set "top" (px (List.length notifications' * 60))
                (Props.set "position" "fixed" []))))))
      text in
  mkShop (cartItems s) notifications' (cart s)
         (notifDivs s ++ [notifDiv])%list
         (timeouts s ++ [next_node s])%list
         (S (next_node s)).

(** The oldest pending callback runs: [notifDiv.remove()] detaches its own
    [div], [notifications.shift()] drops the first text. *)
Definition timeoutFires (s : Shop) : Shop :=
  match timeouts s with
  | [] => s
  | n :: rest =>
      mkShop (cartItems s) (tl (notifications s)) (cart s)
             (filter (fun d => negb (Nat.eqb (node d) n)) (notifDivs s))
             rest (next_node s)
  end.

(** Text that markup leaves as it is: letters, digits, [-] and [_] only,
    so that reading [innerHTML] back gives the characters assigned. *)
Definition plainText (s : string) : bool :=
  forallb
    (fun c =>
       let b := nat_of_ascii c in
       (Nat.leb 48 b && Nat.leb b 57) || (Nat.leb 65 b && Nat.leb b 90) ||
       (Nat.leb 97 b && Nat.leb b 122) || Nat.eqb b 45 || Nat.eqb b 95)
    (list_ascii_of_string s).

(** One entry of the cart, the template literal of [updateCart]. *)
Definition cartEntry (item : string) : string :=
  "<div style=" ++ dq ++ "border-bottom: 1px solid #ccc; padding: 10px;"
    ++ dq ++ ">" ++ nl
    ++ "            Item: " ++ item ++ nl
    ++ "            <button onclick=" ++ dq ++ "removeFromCart('" ++ item
    ++ "')" ++ dq ++ " style=" ++ dq ++ "color: red;" ++ dq
    ++ ">Remove</button>" ++ nl
    ++ "        </div>".

Definition setInnerHTML (v : string) (e : Element) : Element :=
  mkElement (node e) (style e) v.

Definition setStyle (k v : string) (e : Element) : Element :=
  mkElement (node e) (Props.set k v (style e)) (innerHTML e).

Definition updateCart (s : Shop) : Completion unit * Shop :=
  match cart s with
  | None => (Throws, s)
  | Some c =>
      let c :=
        setStyle "overflowY" "auto"
          (setStyle "padding" "20px"
            (setStyle "backgroundColor" "#f0f0f0"
              (setStyle "height" "100%"
                (setStyle "width" "300px"
                  (setStyle "top" "0"
                    (setStyle "right" "0"
                      (setStyle "position" "fixed"
                        (setInnerHTML "" c)))))))) in
      let c :=
        fold_left
          (fun c item => setInnerHTML (innerHTML c ++ cartEntry item) c)
          (cartItems s) c in
      (Returns tt,
       mkShop (cartItems s) (notifications s) (Some c) (notifDivs s)
              (timeouts s) (next_node s))
  end.

Definition pushCartItem (productId : string) (s : Shop) : Shop :=
  mkShop (cartItems s ++ [productId])%list (notifications s) (cart s)
         (notifDivs s) (timeouts s) (next_node s).

Definition addToCart (productId : string) (s : Shop) : Completion unit * Shop :=
  match updateCart (pushCartItem productId s) with
  | (Returns _, s') => (Returns tt, addNotification "Added to cart!" s')
  | (Throws, s') => (Throws, s')
  end.

(** What happens on the page: a click on an [Add to Cart] button, or the
    oldest timeout firing. *)
Inductive ShopEvent : Type :=
| AddToCart (productId : string)
| Timeout.

Definition shopStep (s : Shop) (ev : ShopEvent) : Shop :=
  match ev with
  | AddToCart productId => snd (addToCart productId s)
  | Timeout => timeoutFires s
  end.

Definition shopRun (s : Shop) (evs : list ShopEvent) : Shop :=
  fold_left shopStep evs s.

(** The page as the script's globals start: nothing in the cart, no
    notification; the [cart] element as [window.onload] writes it,
    [<div id=cart></div>]. *)
Definition shopLoaded : Shop :=
  mkShop [] [] (Some (mkElement 0 [] "")) [] [] 1.

(** The notification [div]s are exactly the live notifications: their
    texts are [notifications], their identities are the pending timeouts,
    and no identity is used twice or is still to be handed out. *)
Definition notificationsInSync (s : Shop) : Prop :=
  map innerHTML (notifDivs s) = notifications s /\
  map node (notifDivs s) = timeouts s /\
  NoDup (timeouts s) /\
  Forall (fun n => n < next_node s) (timeouts s).

Definition topOf (d : Element) : option string := Props.get "top" (style d).

End Storefront.

(** ** The shell scripts and the webpack hook *)

Module Scripts.

(** What a path resolves to when symbolic links are followed: a regular
    file, a directory, a special file, or, for a link whose chain ends at a
    path that does not exist, that missing [target]. *)
Inductive Node : Type :=
| RegularFile (content : string)
| Directory
| Special
| DanglingLink (target : string).

(** The file system as seen from the working directory. *)
Definition FS : Type := string -> option Node.

(** [[ -f path ]]: the path exists and is a regular file. *)
Definition test_f (fs : FS) (path : string) : bool :=
  match fs path with
  | Some (RegularFile _) => true
  | _ => false
  end.

(** The array [files] of [check_files.sh]. *)
Definition files : list string :=
  [ "pages/_app.tsx"; "pages/index.tsx"; "src/components/sidebar.tsx";
    "src/components/editor.tsx"; "src/components/code-editor.tsx";
    "src/components/theme-provider.tsx"; "src/lib/store.ts";
    "src/lib/utils.ts"; "src/styles/globals.css"; "next.config.js";
    "tsconfig.json"; "tailwind.config.js" ].

(** The line the loop prints for one file. *)
Definition report (fs : FS) (file : string) : string :=
  if test_f fs file
  then "✅ " ++ file ++ " exists"
  else "❌ " ++ file ++ " is missing".

(** [check_files.sh]: the lines it writes to standard output. *)
Definition check_files (fs : FS) : list string :=
  ("Checking project files..." :: "------------------------"
     :: map (report fs) files) ++ ["------------------------"].


Section Setup.

(** The line [setup.sh] writes, [GROQ_API_KEY=...]. *)
Variable key_line : string.


End Setup.

(** The [config] object the webpack hook of [next.config.js] receives:
    [config.resolve] may be missing, and so may [config.resolve.alias]. *)
Record Config : Type := mkConfig {
  resolve : option (option Props.Obj)
}.

(** [config.resolve.alias = { ...config.resolve.alias, 'monaco-editor':
    '@monaco-editor/react' }; return config]. *)
Definition webpack (config : Config) : option Config :=
  match resolve config with
  | None => None
  | Some alias =>
      Some (mkConfig
              (Some (Some (Props.set "monaco-editor" "@monaco-editor/react"
                             (match alias with
                              | Some table => table
                              | None => []
                              end)))))
  end.

End Scripts.

(** * Facts about the text primitives *)

Section TextFacts.

Import Text.

Lemma append_nil_r (s : string) : s ++ "" = s.
Proof. induction s as [|c s IH]; simpl; [reflexivity | now rewrite IH]. Qed.

Lemma append_assoc (a b c : string) : (a ++ b) ++ c = a ++ (b ++ c).
Proof. induction a as [|x a IH]; simpl; [reflexivity | now rewrite IH]. Qed.

Lemma length_append (a b : string) :
  String.length (a ++ b) = String.length a + String.length b.
Proof. induction a as [|x a IH]; simpl; [reflexivity | now rewrite IH]. Qed.

Lemma skip_append (a b : string) : skip (String.length a) (a ++ b) = b.
Proof. induction a as [|x a IH]; simpl; [reflexivity | exact IH]. Qed.

Lemma prefix_append (p t : string) : prefix p (p ++ t) = true.
Proof.
  induction p as [|c p IH]; simpl.
  - now destruct t.
  - destruct (ascii_dec c c) as [_|ne]; [exact IH | now elim ne].
Qed.

Lemma prefix_split (p s : string) :
  prefix p s = true -> s = p ++ skip (String.length p) s.
Proof.
  revert s; induction p as [|c p IH]; intros s H; simpl.
  - reflexivity.
  - destruct s as [|d s]; simpl in H; [discriminate|].
    destruct (ascii_dec c d) as [->|_]; [|discriminate].
    now rewrite <- (IH s H).
Qed.

Lemma prefix_iff (p s : string) :
  prefix p s = true <-> exists t, s = p ++ t.
Proof.
  split.
  - intros H. exists (skip (String.length p) s). now apply prefix_split.
  - intros [t ->]. apply prefix_append.
Qed.

Lemma occurs_nil (pat : string) : occurs pat "" = prefix pat "".
Proof. unfold occurs. apply orb_false_r. Qed.

Lemma occurs_cons (pat : string) (c : ascii) (s : string) :
  occurs pat (String c s) = prefix pat (String c s) || occurs pat s.
Proof. reflexivity. Qed.

Lemma replace_first_here (pat rep s : string) :
  prefix pat s = true ->
  replace_first pat rep s = rep ++ skip (String.length pat) s.
Proof. intros P. destruct s; unfold replace_first; fold replace_first; now rewrite P. Qed.

Lemma replace_first_later (pat rep : string) (c : ascii) (s : string) :
  prefix pat (String c s) = false ->
  replace_first pat rep (String c s) = String c (replace_first pat rep s).
Proof. intros P. unfold replace_first; fold replace_first. now rewrite P. Qed.

Lemma occurs_iff (pat s : string) :
  occurs pat s = true <-> exists pre post, s = pre ++ pat ++ post.
Proof.
  split.
  - induction s as [|c s IH]; intros H.
    + rewrite occurs_nil in H. apply prefix_iff in H as [t Ht].
      now exists "", t.
    + rewrite occurs_cons in H. apply orb_true_iff in H as [H|H].
      * apply prefix_iff in H as [t Ht]. now exists "", t.
      * destruct (IH H) as (pre & post & ->). now exists (String c pre), post.
  - intros (pre & post & ->).
    induction pre as [|c pre IH].
    + change ("" ++ pat ++ post) with (pat ++ post).
      assert (P : prefix pat (pat ++ post) = true) by apply prefix_append.
      destruct (pat ++ post); [now rewrite occurs_nil | now rewrite occurs_cons, P].
    + change (String c pre ++ pat ++ post) with (String c (pre ++ pat ++ post)).
      rewrite occurs_cons, IH. apply orb_true_r.
Qed.

Lemma occurs_empty_pattern (s : string) : occurs "" s = true.
Proof. destruct s; reflexivity. Qed.

Lemma replace_first_miss (pat rep s : string) :
  occurs pat s = false -> replace_first pat rep s = s.
Proof.
  induction s as [|c s IH]; intros H.
  - rewrite occurs_nil in H. unfold replace_first. now rewrite H.
  - rewrite occurs_cons in H. apply orb_false_iff in H as [P H].
    now rewrite (replace_first_later _ _ _ _ P), (IH H).
Qed.

(** A hit replaces exactly one occurrence, and no occurrence starts further
    to the left. *)
Lemma replace_first_hit (pat rep s : string) :
  occurs pat s = true ->
  exists pre post,
    s = pre ++ pat ++ post /\
    replace_first pat rep s = pre ++ rep ++ post /\
    forall pre' post',
      s = pre' ++ pat ++ post' -> String.length pre <= String.length pre'.
Proof.
  assert (Here : forall t, prefix pat t = true ->
    exists pre post, t = pre ++ pat ++ post /\
      replace_first pat rep t = pre ++ rep ++ post /\
      forall pre' post',
        t = pre' ++ pat ++ post' -> String.length pre <= String.length pre').
  { intros t P. exists "", (skip (String.length pat) t).
    split; [now apply prefix_split|].
    split; [now apply replace_first_here|].
    intros; simpl; lia. }
  induction s as [|c s IH]; intros H.
  - rewrite occurs_nil in H. now apply Here.
  - destruct (prefix pat (String c s)) eqn:P; [now apply Here|].
    rewrite occurs_cons, P in H. simpl in H.
    destruct (IH H) as (pre & post & E & R & Least).
    exists (String c pre), post.
    split; [simpl; now rewrite <- E|].
    split; [rewrite (replace_first_later _ _ _ _ P), R; reflexivity|].
    intros pre' post' E'.
    destruct pre' as [|d pre'].
    + change ("" ++ pat ++ post') with (pat ++ post') in E'.
      rewrite E', prefix_append in P. discriminate.
    + simpl in E'. injection E' as _ E'. simpl. specialize (Least _ _ E'). lia.
Qed.

Lemma replace_first_empty_pattern (rep s : string) :
  replace_first "" rep s = rep ++ s.
Proof. destruct s; reflexivity. Qed.

Lemma occurs_false_iff (pat s : string) :
  occurs pat s = false <-> forall pre post, s <> pre ++ pat ++ post.
Proof.
  split.
  - intros H pre post E.
    assert (T : occurs pat s = true) by (apply occurs_iff; eauto).
    congruence.
  - intros H. destruct (occurs pat s) eqn:O; [|reflexivity].
    apply occurs_iff in O as (pre & post & E). now elim (H pre post).
Qed.

Lemma append_same_length (a b a' b' : string) :
  a ++ b = a' ++ b' -> String.length a = String.length a' -> a = a' /\ b = b'.
Proof.
  revert a'; induction a as [|c a IH]; intros [|c' a'] E L;
    simpl in *; try discriminate.
  - now split.
  - injection E as -> E. injection L as L.
    destruct (IH _ E L) as [-> ->]. now split.
Qed.

(** The leftmost occurrence is unique, so the replacement is determined by
    any decomposition of the text at a leftmost occurrence. *)
Lemma replace_first_leftmost (pat rep s pre post : string) :
  s = pre ++ pat ++ post ->
  (forall pre' post',
      s = pre' ++ pat ++ post' -> String.length pre <= String.length pre') ->
  replace_first pat rep s = pre ++ rep ++ post.
Proof.
  intros E Least.
  assert (O : occurs pat s = true) by (apply occurs_iff; eauto).
  destruct (replace_first_hit pat rep s O) as (pre0 & post0 & E0 & R & Least0).
  assert (L : String.length pre0 = String.length pre).
  { specialize (Least _ _ E0). specialize (Least0 _ _ E). lia. }
  rewrite E in E0.
  destruct (append_same_length _ _ _ _ E0 (eq_sym L)) as [-> E1].
  destruct (append_same_length pat post pat post0 E1 eq_refl) as [_ ->].
  exact R.
Qed.

End TextFacts.

(** * Facts about selections *)

Section SelectionFacts.

Lemma selected_app (i : string) (s1 s2 : Selection) :
  selected i (s1 ++ s2)%list = selected i s1 || selected i s2.
Proof. apply existsb_app. Qed.

Lemma selected_nil_iff (sel : Selection) :
  (forall i, selected i sel = false) <-> sel = [].
Proof.
  split; [|now intros ->].
  destruct sel as [|[k r] sel]; [reflexivity|]. intros H.
  specialize (H k). simpl in H. now rewrite String.eqb_refl in H.
Qed.

Lemma selected_remove (i j : string) (sel : Selection) :
  selected j (Engine.remove i sel) = negb (j =? i) && selected j sel.
Proof.
  induction sel as [|[k r] sel IH]; simpl.
  - now rewrite andb_false_r.
  - destruct (k =? i) eqn:K; simpl.
    + apply String.eqb_eq in K as ->. rewrite IH.
      destruct (i =? j) eqn:J; simpl; [|reflexivity].
      apply String.eqb_eq in J as ->. now rewrite String.eqb_refl.
    + rewrite IH. destruct (k =? j) eqn:J; simpl; [|reflexivity].
      apply String.eqb_eq in J as ->. now rewrite K.
Qed.



Lemma get_Some (catalog : Catalog) (i : string) (r : Improvement) :
  Engine.get catalog i = Some r -> In r catalog /\ id r = i.
Proof.
  intros H. apply find_some in H as [I E]. now apply String.eqb_eq in E.
Qed.

Lemma get_None (catalog : Catalog) (i : string) :
  Engine.get catalog i = None <-> forall r, In r catalog -> id r <> i.
Proof.
  split.
  - intros H r I E. apply (find_none _ _ H) in I.
    apply String.eqb_neq in I. contradiction.
  - intros H. unfold Engine.get.
    destruct (find _ catalog) as [r|] eqn:F; [|reflexivity].
    apply find_some in F as [I E]. apply String.eqb_eq in E.
    now elim (H r I).
Qed.

(** A successful toggle flips the membership of its id and of no other. *)
Lemma toggle_Ok_members (catalog : Catalog) (sel sel' : Selection) (i : string) :
  Engine.toggle catalog sel i = Engine.Ok sel' ->
  forall j, selected j sel' = if j =? i then negb (selected i sel) else selected j sel.
Proof.
  unfold Engine.toggle. intros H j.
  destruct (selected i sel) eqn:S.
  - injection H as <-. rewrite selected_remove.
    destruct (j =? i) eqn:J; simpl; reflexivity.
  - destruct (Engine.get catalog i) as [r|]; [|discriminate].
    injection H as <-. rewrite selected_app. simpl.
    rewrite orb_false_r, (String.eqb_sym i j).
    destruct (j =? i) eqn:J; simpl.
    + apply String.eqb_eq in J as ->. now rewrite S.
    + apply orb_false_r.
Qed.

Lemma toggle_within (catalog : Catalog) (sel sel' : Selection) (i : string) :
  Engine.within catalog sel ->
  Engine.toggle catalog sel i = Engine.Ok sel' ->
  Engine.within catalog sel'.
Proof.
  intros W H j. rewrite (toggle_Ok_members _ _ _ _ H).
  destruct (j =? i) eqn:J; [|apply W].
  apply String.eqb_eq in J as ->. intros N.
  unfold Engine.toggle in H. destruct (selected i sel); [discriminate|].
  destruct (Engine.get catalog i); [discriminate|discriminate].
Qed.


End SelectionFacts.

(** * Facts about the application pass *)

Section ApplyFacts.

Import Text.

Lemma apply_nil (original : string) (sel : Selection) :
  Engine.apply original [] sel = original.
Proof. reflexivity. Qed.

Lemma apply_cons (original : string) (r : Improvement) (rest : Catalog) (sel : Selection) :
  Engine.apply original (r :: rest) sel =
  Engine.apply (Engine.substitute sel original r) rest sel.
Proof. reflexivity. Qed.

(** The pass reads the selection through membership only. *)
Lemma apply_same_set (original : string) (catalog : Catalog) (s1 s2 : Selection) :
  same_set s1 s2 ->
  Engine.apply original catalog s1 = Engine.apply original catalog s2.
Proof.
  intros E. revert original.
  induction catalog as [|r rest IH]; intros original; [reflexivity|].
  rewrite !apply_cons, IH. unfold Engine.substitute. now rewrite (E (id r)).
Qed.

(** Empty selection law. *)
Lemma apply_empty_selection (original : string) (catalog : Catalog) :
  Engine.apply original catalog [] = original.
Proof.
  revert original. induction catalog as [|r rest IH]; intros original;
    [reflexivity|].
  rewrite apply_cons. exact (IH original).
Qed.

Lemma substitute_miss (sel : Selection) (text : string) (r : Improvement) :
  occurs (original_code r) text = false ->
  Engine.substitute sel text r = text.
Proof.
  intros O. unfold Engine.substitute.
  destruct (selected (id r) sel); [now apply replace_first_miss | reflexivity].
Qed.

Lemma Pass_apply (sel : Selection) (catalog : Catalog) (text : string) :
  Engine.Pass sel text catalog (Engine.apply text catalog sel).
Proof.
  revert text. induction catalog as [|r rest IH]; intros text.
  - apply Engine.Pass_done.
  - rewrite apply_cons. unfold Engine.substitute.
    destruct (selected (id r) sel) eqn:S.
    + destruct (occurs (original_code r) text) eqn:O.
      * destruct (replace_first_hit _ (improved_code r) _ O)
          as (pre & post & E & R & Least).
        rewrite R.
        now apply Engine.Pass_replace with (pre := pre) (post := post).
      * rewrite (replace_first_miss _ _ _ O).
        apply Engine.Pass_miss; [exact S | now apply occurs_false_iff | apply IH].
    + now apply Engine.Pass_unselected.
Qed.

Lemma Pass_unique (sel : Selection) (catalog : Catalog) (text out : string) :
  Engine.Pass sel text catalog out -> out = Engine.apply text catalog sel.
Proof.
  induction 1 as [text
                 |text r rest out S _ IH
                 |text r rest out S Miss _ IH
                 |text r rest out pre post S E Least _ IH].
  - reflexivity.
  - rewrite apply_cons. unfold Engine.substitute. now rewrite S.
  - rewrite apply_cons, substitute_miss; [exact IH|].
    now apply occurs_false_iff.
  - rewrite apply_cons. unfold Engine.substitute. rewrite S.
    now rewrite (replace_first_leftmost _ _ _ _ _ E Least).
Qed.

(** Two selected records with the same target, the first of which consumes
    the match: the second is skipped. *)
Lemma apply_overlap (original : string) (sel : Selection) (r1 r2 : Improvement) :
  selected (id r1) sel = true ->
  original_code r2 = original_code r1 ->
  occurs (original_code r1)
         (replace_first (original_code r1) (improved_code r1) original) = false ->
  Engine.apply original [r1; r2] sel =
  replace_first (original_code r1) (improved_code r1) original.
Proof.
  intros S1 E O. rewrite !apply_cons, apply_nil.
  rewrite substitute_miss; unfold Engine.substitute; rewrite S1;
    [reflexivity | now rewrite E].
Qed.

End ApplyFacts.

(** * The component: which handler writes which cell *)

Section ComponentFacts.

Import HTMLModernizer.

Variable endpoint : string -> list Improvement -> Response string.

Lemma analyzeHtml_cells (st : State) (resp : Response Catalog) :
  html (analyzeHtml st resp) = html st /\
  selectedImprovements (analyzeHtml st resp) = selectedImprovements st /\
  improvedHtml (analyzeHtml st resp) = improvedHtml st /\
  isAnalyzing (analyzeHtml st resp) = false.
Proof. destruct resp; repeat split. Qed.


Lemma applyImprovements_settle_cells (st : State) (resp : Response string) :
  html (applyImprovements_settle resp st) = html st /\
  improvements (applyImprovements_settle resp st) = improvements st /\
  selectedImprovements (applyImprovements_settle resp st)
    = selectedImprovements st.
Proof. destruct resp; repeat split. Qed.


Lemma selectionEffect_cells (st : State) :
  html (selectionEffect endpoint st) = html st /\
  improvements (selectionEffect endpoint st) = improvements st /\
  selectedImprovements (selectionEffect endpoint st) = selectedImprovements st.
Proof.
  unfold selectionEffect, applyImprovements.
  destruct (Nat.ltb 0 _); [apply applyImprovements_settle_cells | now repeat split].
Qed.


(** With something selected the effect stores what the endpoint answers. *)
Lemma selectionEffect_answer (st : State) (doc : option string) :
  selectedImprovements st <> [] ->
  endpoint (html st) (Object_values (selectedImprovements st)) = Json doc ->
  selectionEffect endpoint st = setImprovedHtml doc st.
Proof.
  intros N A. unfold selectionEffect, applyImprovements. rewrite A.
  destruct (selectedImprovements st) as [|kv sel]; [now elim N | reflexivity].
Qed.


(** Until a toggle succeeds, no request to the endpoint is made and the
    transformed document is the empty string it starts as. *)
Lemma improvedHtml_without_toggle (evs : list Event) (st : State) :
  (forall i, ~ In (Toggle i) evs) ->
  improvedHtml (run endpoint st evs) = improvedHtml st.
Proof.
  revert st. induction evs as [|ev evs IH]; intros st H; [reflexivity|].
  assert (T : forall i, ~ In (Toggle i) evs)
    by (intros i I; apply (H i); now right).
  change (run endpoint st (ev :: evs))
    with (run endpoint (step endpoint st ev) evs).
  rewrite (IH _ T).
  destruct ev as [text|resp|i|h]; cbn [step].
  - reflexivity.
  - destruct (analyzeDisabled st); [reflexivity | apply analyzeHtml_cells].
  - elim (H i). now left.
  - reflexivity.
Qed.

Lemma improvedSrcDoc_nonempty (st : State) (doc : string) :
  improvedHtml st = Some doc -> doc <> "" -> improvedSrcDoc st = doc.
Proof.
  intros E N. unfold improvedSrcDoc. rewrite E.
  apply String.eqb_neq in N. now rewrite N.
Qed.

End ComponentFacts.

(** * The engine's laws on toggle histories *)

Section ToggleHistories.

Variable catalog : Catalog.



(** Every selection a toggle history builds from the empty one refers to
    records of the catalog only. *)
Lemma toggles_within (sel : Selection) (ids : list string) :
  Engine.within catalog sel ->
  Engine.within catalog (Engine.toggles catalog sel ids).
Proof.
  revert sel. induction ids as [|i ids IH]; intros sel W; [exact W|].
  cbn [Engine.toggles fold_left]. apply IH.
  destruct (Engine.toggle catalog sel i) as [sel'|e] eqn:T;
    cbn [Engine.selection_after]; [now apply (toggle_within _ _ _ _ W T) | exact W].
Qed.

Lemma within_nil : Engine.within catalog [].
Proof. intros i S. discriminate. Qed.

(** Order independence of the specified engine: toggle histories that end
    in the same selection set give the same transformed document. *)
Lemma toggles_same_set_same_document
    (original : string) (s1 s2 : Selection) (ids1 ids2 : list string) :
  same_set (Engine.toggles catalog s1 ids1) (Engine.toggles catalog s2 ids2) ->
  Engine.apply original catalog (Engine.toggles catalog s1 ids1) =
  Engine.apply original catalog (Engine.toggles catalog s2 ids2).
Proof. apply apply_same_set. Qed.

End ToggleHistories.

(** * The session: analysis, selection and preview *)

Section Session.

Import HTMLModernizer.

(** C9: whenever [improvedHtml] is the empty string, as it is from the
    start until an application has answered, the Improved pane, when it is
    rendered, renders the source document [html]; in split view both panes
    show that same document. *)
Theorem improved_pane_shows_original_while_empty
    (st : State) (E : improvedHtml st = Some "") :
  improvedSrcDoc st = html st /\
  (forall n doc, improvedPane (render st) = Some (n, doc) -> doc = html st) /\
  (activeTab st = "preview" -> previewMode st = "split" ->
   originalPane (render st) = Some (html st) /\
   improvedPane (render st)
     = Some (List.length (Object_keys (selectedImprovements st)), html st)) /\
  improvedHtml initialState = Some "".
Proof.
  assert (D : improvedSrcDoc st = html st)
    by (unfold improvedSrcDoc; now rewrite E).
  split; [exact D|]. split; [|split; [|reflexivity]].
  - intros n doc. cbn [render improvedPane]. rewrite D.
    destruct (_ && _); [|discriminate]. now intros [= _ <-].
  - intros T M. cbn [render originalPane improvedPane].
    now rewrite T, M, D.
Qed.

(** After an analysis and before any toggle, the Improved pane would show
    the pasted document. *)
Lemma improved_pane_shows_original_while_empty_witness :
  improvedSrcDoc Sample.analyzed = "<p>Hi</p>".
Proof.
  exact (proj1 (improved_pane_shows_original_while_empty
                  Sample.analyzed eq_refl)).
Defined.


(** C5, as the component has it: the catalog is the provider's record list
    exactly as received, in response order, duplicates included; storing it
    raises nothing, and the cards are rendered in that order. *)
Theorem catalog_stored_as_received (st : State) (recs : Catalog) :
  improvements (analyzeHtml st (Json (Some recs))) = Some recs /\
  catalog_of (analyzeHtml st (Json (Some recs))) = recs /\
  console (analyzeHtml st (Json (Some recs))) = console st /\
  option_map (map fst) (cards (render (analyzeHtml st (Json (Some recs)))))
    = Some recs.
Proof.
  repeat split. cbn [render cards improvements analyzeHtml analyzeHtml_settle
                      analyzeHtml_begin setIsAnalyzing setImprovements
                      option_map].
  rewrite map_map. cbn [fst]. now rewrite map_id.
Qed.

(** C5 as stated fails: two records with the id [r1] are stored, both, and
    nothing is reported. *)
Lemma duplicate_id_counterexample :
  ~ NoDup (map id [Sample.intro; Sample.intro_again]) /\
  improvements
    (step apply_improvements_endpoint (setHtml "<p>Hi</p>" initialState)
          (Analyze (Json (Some [Sample.intro; Sample.intro_again]))))
    = Some [Sample.intro; Sample.intro_again] /\
  console
    (step apply_improvements_endpoint (setHtml "<p>Hi</p>" initialState)
          (Analyze (Json (Some [Sample.intro; Sample.intro_again]))))
    = [].
Proof.
  split; [|now split].
  intros N. inversion N as [|x l NotIn _]. apply NotIn. now left.
Qed.

(** C7, as the component has it: when the analysis request throws (the
    fetch rejects, the body is not JSON, or it parses to [null]), the
    catalog, the selection and the transformed document are the ones they
    were, the failure is written to the console, and what the component
    renders is what it rendered before the request. *)
Theorem analysis_failure_leaves_session
    (endpoint : string -> list Improvement -> Response string)
    (st : State) (resp : Response Catalog)
    (T : throws resp = true) (B : analyzeDisabled st = false) :
  improvements (step endpoint st (Analyze resp)) = improvements st /\
  selectedImprovements (step endpoint st (Analyze resp))
    = selectedImprovements st /\
  improvedHtml (step endpoint st (Analyze resp)) = improvedHtml st /\
  console (step endpoint st (Analyze resp))
    = (console st ++ ["Analysis failed:"])%list /\
  render (step endpoint st (Analyze resp)) = render st.
Proof.
  cbn [step]. rewrite B.
  assert (A : isAnalyzing st = false).
  { unfold analyzeDisabled in B. now apply orb_false_iff in B. }
  destruct st as [h c s a p t m d v l]. cbn in A. subst a.
  destruct resp; try discriminate; repeat split.
Qed.

Lemma analysis_failure_leaves_session_witness :
  improvements
    (step apply_improvements_endpoint Sample.chosen (Analyze FetchRejected))
    = Some [Sample.intro] /\
  selectedImprovements
    (step apply_improvements_endpoint Sample.chosen (Analyze FetchRejected))
    = [("r1", Sample.intro)] /\
  improvedHtml
    (step apply_improvements_endpoint Sample.chosen (Analyze FetchRejected))
    = Some "<p class='intro'>Hi</p>" /\
  console
    (step apply_improvements_endpoint Sample.chosen (Analyze FetchRejected))
    = ["Analysis failed:"] /\
  render
    (step apply_improvements_endpoint Sample.chosen (Analyze FetchRejected))
    = render Sample.chosen.
Proof.
  exact (analysis_failure_leaves_session apply_improvements_endpoint
           Sample.chosen FetchRejected eq_refl eq_refl).
Defined.

(** C7 as stated fails twice: a body that parses but carries no
    [improvements] replaces the catalog by nothing, and a rejected request
    changes nothing the component renders. *)
Lemma analysis_error_counterexample :
  improvements Sample.chosen = Some [Sample.intro] /\
  improvements
    (step apply_improvements_endpoint Sample.chosen (Analyze (Json None)))
    = None /\
  console
    (step apply_improvements_endpoint Sample.chosen (Analyze (Json None)))
    = [] /\
  render
    (step apply_improvements_endpoint Sample.chosen (Analyze FetchRejected))
    = render Sample.chosen.
Proof. repeat split. Qed.

End Session.

(** * Property lists *)

Section PropsFacts.

Lemma props_get_set_same (k v : string) (o : Props.Obj) :
  Props.get k (Props.set k v o) = Some v.
Proof.
  induction o as [|[k' v'] o IH]; simpl.
  - now rewrite String.eqb_refl.
  - destruct (k' =? k) eqn:K; simpl.
    + now rewrite String.eqb_refl.
    + now rewrite K.
Qed.

Lemma props_get_set_other (k k' v : string) (o : Props.Obj) :
  k' <> k -> Props.get k' (Props.set k v o) = Props.get k' o.
Proof.
  intros N. induction o as [|[j w] o IH]; simpl.
  - apply String.eqb_neq in N. rewrite String.eqb_sym. now rewrite N.
  - destruct (j =? k) eqn:K; simpl.
    + apply String.eqb_eq in K as ->.
      assert (E : (k =? k') = false)
        by (apply String.eqb_neq; congruence).
      now rewrite E.
    + now rewrite IH.
Qed.

Lemma props_set_present (k v : string) (o : Props.Obj) :
  Props.get k o = Some v -> Props.set k v o = o.
Proof.
  induction o as [|[j w] o IH]; simpl; [discriminate|].
  destruct (j =? k) eqn:K.
  - apply String.eqb_eq in K as ->. now intros [= ->].
  - intros G. now rewrite (IH G).
Qed.

Lemma props_set_set (k v w : string) (o : Props.Obj) :
  Props.set k v (Props.set k w o) = Props.set k v o.
Proof.
  induction o as [|[j u] o IH]; simpl.
  - now rewrite String.eqb_refl.
  - destruct (j =? k) eqn:K; simpl.
    + now rewrite String.eqb_refl.
    + now rewrite K, IH.
Qed.

End PropsFacts.

(** * The page script: theme, menu and form *)

Section PageFacts.

Import Storefront.

Lemma map_const_Forall (c : string) (l : list string) :
  map (fun _ => c) l = l <-> Forall (fun x => x = c) l.
Proof.
  induction l as [|x l IH]; simpl.
  - split; [constructor | reflexivity].
  - split.
    + intros [= <- E]. constructor; [reflexivity | now apply IH].
    + intros F. inversion F as [|y l' -> F']. subst. f_equal. now apply IH.
Qed.

(** X1: a click on the theme button flips [currentTheme] between [light]
    and [dark] (any other value counts as dark), keeps every [div], and
    paints the border of every [div] in the text colour it gives the body;
    from the first click on the page alternates between two looks: the
    third click gives what the first gave. *)
Theorem toggleTheme_alternates (s : Theme) :
  (currentTheme (toggleTheme s)
   = if currentTheme s =? "light" then "dark" else "light") /\
  List.length (allDivs_borderColor (toggleTheme s))
  = List.length (allDivs_borderColor s) /\
  Forall (fun c => c = body_color (toggleTheme s))
         (allDivs_borderColor (toggleTheme s)) /\
  toggleTheme (toggleTheme (toggleTheme s)) = toggleTheme s.
Proof.
  unfold toggleTheme.
  destruct (currentTheme s =? "light") eqn:T; cbn;
    rewrite ?length_map, ?map_map; repeat split;
    apply Forall_forall; intros c I; apply in_map_iff in I as (x & <- & _);
    reflexivity.
Qed.


(** X3: with the menu element in the document, a click on the menu button
    flips [isMenuOpen] and puts the menu at [0px] when it is now open and at
    [-200px] when it is now closed, whatever its offset was; a second click
    restores the flag.  Without the element the handler throws before it
    writes anything. *)
Theorem toggleMenu_tracks_flag (s : Menu) :
  match menu_left s with
  | None => toggleMenu s = (Throws, s)
  | Some _ =>
      fst (toggleMenu s) = Returns tt /\
      isMenuOpen (snd (toggleMenu s)) = negb (isMenuOpen s) /\
      menu_left (snd (toggleMenu s))
      = Some (if isMenuOpen (snd (toggleMenu s)) then "0px" else "-200px") /\
      toggleMenu (snd (toggleMenu s))
      = (Returns tt,
         mkMenu (isMenuOpen s)
                (Some (if isMenuOpen s then "0px" else "-200px")))
  end.
Proof.
  destruct s as [[|] [l|]]; cbn; repeat split.
Qed.



(** X4: with the three inputs in the document, [validateForm] accepts the
    form (returns [true]) exactly when the name has at least two UTF-16
    code units, the email contains an [@] and the phone has exactly ten code
    units, of whatever kind; otherwise it returns [false]. *)
Theorem validateForm_accepts_iff
    (s : Form) (name email phone : string)
    (N : name_value s = Some name) (E : email_value s = Some email)
    (P : phone_value s = Some phone) :
  (fst (validateForm s) = Returns true <->
   2 <= js_length name /\
   (exists pre post, email = pre ++ "@" ++ post) /\
   js_length phone = 10) /\
  (fst (validateForm s) = Returns true \/
   fst (validateForm s) = Returns false).
Proof.
  unfold validateForm. rewrite N, E, P.
  destruct (Nat.ltb_spec (js_length name) 2) as [L|L]; cbn.
  { split; [|now right]. split; [discriminate|]. intros (H & _). lia. }
  destruct (Text.occurs "@" email) eqn:O; cbn.
  2:{ split; [|now right]. split; [discriminate|]. intros (_ & H & _).
      pose proof (proj2 (occurs_iff "@" email) H). congruence. }
  destruct (Nat.eqb_spec (js_length phone) 10) as [Q|Q]; cbn.
  - split; [|now left]. split; [|reflexivity]. intros _.
    split; [exact L|].
    split; [exact (proj1 (occurs_iff "@" email) O) | exact Q].
  - split; [|now right]. split; [discriminate|]. intros (_ & _ & H).
    contradiction.
Qed.

Lemma validateForm_accepts_iff_witness :
  fst (validateForm
         (mkForm None [] (Some "Al") (Some "al@example.org")
                 (Some "call-me-up")))
  = Returns true.
Proof.
  apply (proj1 (validateForm_accepts_iff
                  (mkForm None [] (Some "Al") (Some "al@example.org")
                          (Some "call-me-up"))
                  "Al" "al@example.org" "call-me-up"
                  eq_refl eq_refl eq_refl)).
  split; [vm_compute; lia|]. split; [|reflexivity].
  exists "al", "example.org". reflexivity.
Defined.


End PageFacts.

(** * The page script: cart and notifications *)

Section ShopFacts.

Import Storefront.

(** The eight style properties [updateCart] writes on the cart. *)
Lemma cart_style_settled (o : Props.Obj) :
  let styled o :=
    Props.set "overflowY" "auto"
      (Props.set "padding" "20px"
        (Props.set "backgroundColor" "#f0f0f0"
          (Props.set "height" "100%"
            (Props.set "width" "300px"
              (Props.set "top" "0"
                (Props.set "right" "0"
                  (Props.set "position" "fixed" o))))))) in
  styled (styled o) = styled o.
Proof.
  intros styled. unfold styled at 1.
  repeat (rewrite props_set_present;
          [|unfold styled;
            repeat (rewrite props_get_set_other by discriminate);
            apply props_get_set_same]).
  reflexivity.
Qed.

Lemma cart_entries_fold (items : list string) (c : Element) :
  fold_left (fun c item => setInnerHTML (innerHTML c ++ cartEntry item) c)
            items c
  = mkElement (node c) (style c)
      (innerHTML c ++ fold_right String.append "" (map cartEntry items)).
Proof.
  revert c. induction items as [|item items IH]; intros c; simpl.
  - rewrite append_nil_r. now destruct c.
  - rewrite IH. cbn. now rewrite append_assoc.
Qed.

Lemma updateCart_present (s : Shop) (c : Element) :
  cart s = Some c ->
  updateCart s
  = (Returns tt,
     mkShop (cartItems s) (notifications s)
       (Some (mkElement (node c)
          (Props.set "overflowY" "auto"
            (Props.set "padding" "20px"
              (Props.set "backgroundColor" "#f0f0f0"
                (Props.set "height" "100%"
                  (Props.set "width" "300px"
                    (Props.set "top" "0"
                      (Props.set "right" "0"
                        (Props.set "position" "fixed" (style c)))))))))
          (fold_right String.append "" (map cartEntry (cartItems s)))))
       (notifDivs s) (timeouts s) (next_node s)).
Proof.
  intros C. unfold updateCart. rewrite C, cart_entries_fold. reflexivity.
Qed.

Lemma updateCart_absent (s : Shop) :
  cart s = None -> updateCart s = (Throws, s).
Proof. intros C. unfold updateCart. now rewrite C. Qed.

Lemma addToCart_present (productId : string) (s : Shop) (c : Element) :
  cart s = Some c ->
  addToCart productId s
  = (Returns tt,
     addNotification "Added to cart!"
       (snd (updateCart (pushCartItem productId s)))).
Proof.
  intros C. unfold addToCart.
  now rewrite (updateCart_present (pushCartItem productId s) c C).
Qed.

Lemma addToCart_absent (productId : string) (s : Shop) :
  cart s = None -> addToCart productId s = (Throws, pushCartItem productId s).
Proof.
  intros C. unfold addToCart.
  now rewrite (updateCart_absent (pushCartItem productId s) C).
Qed.

(** What a step leaves of the notification side of the page. *)
Lemma shopStep_add_present (productId : string) (s : Shop) (c : Element) :
  cart s = Some c ->
  exists c' fresh,
    shopStep s (AddToCart productId)
    = mkShop (cartItems s ++ [productId])%list
             (notifications s ++ ["Added to cart!"])%list
             (Some c')
             (notifDivs s ++ [fresh])%list
             (timeouts s ++ [next_node s])%list
             (S (next_node s)) /\
    node fresh = next_node s /\
    innerHTML fresh = "Added to cart!" /\
    topOf fresh = Some (px (S (List.length (notifications s)) * 60)) /\
    innerHTML c'
    = fold_right String.append ""
        (map cartEntry (cartItems s ++ [productId])%list).
Proof.
  intros C. cbn [shopStep]. rewrite (addToCart_present _ _ _ C).
  rewrite (updateCart_present (pushCartItem productId s) c C).
  cbn [snd]. unfold addNotification.
  cbn [cartItems notifications cart notifDivs timeouts next_node pushCartItem].
  eexists. eexists. split; [reflexivity|].
  cbn [node innerHTML]. repeat split.
  unfold topOf. cbn [style].
  repeat (rewrite props_get_set_other by discriminate).
  rewrite props_get_set_same. rewrite length_app. cbn [List.length].
  now rewrite Nat.add_1_r.
Qed.

Lemma filter_all {A : Type} (f : A -> bool) (l : list A) :
  (forall x, In x l -> f x = true) -> filter f l = l.
Proof.
  induction l as [|x l IH]; intros H; simpl; [reflexivity|].
  rewrite (H x (or_introl eq_refl)). f_equal. apply IH.
  intros y I. apply H. now right.
Qed.

(** The oldest timeout removes the oldest notification and its text. *)
Lemma timeoutFires_in_sync (s : Shop) (d : Element) (rest : list Element) :
  notificationsInSync s ->
  notifDivs s = d :: rest ->
  timeoutFires s
  = mkShop (cartItems s) (map innerHTML rest) (cart s) rest
           (map node rest) (next_node s).
Proof.
  intros (T & N & D & _) E. unfold timeoutFires.
  rewrite E in T, N. cbn in T, N. rewrite <- N, <- T. cbn [tl].
  rewrite E. cbn [filter]. rewrite Nat.eqb_refl. cbn [negb].
  rewrite filter_all; [reflexivity|].
  intros x I. apply negb_true_iff, Nat.eqb_neq. intros Q.
  rewrite <- N in D. inversion D as [|n l NotIn _]. apply NotIn.
  rewrite <- Q. now apply in_map.
Qed.

Lemma NoDup_snoc {A : Type} (x : A) (l : list A) :
  NoDup l -> ~ In x l -> NoDup (l ++ [x]).
Proof.
  induction l as [|y l IH]; intros D N; simpl.
  - constructor; [intros [] | constructor].
  - inversion D as [|z l' NotIn D']. subst. constructor.
    + intros I. apply in_app_or in I as [I|[->|[]]]; [now apply NotIn|].
      apply N. now left.
    + apply IH; [exact D'|]. intros I. apply N. now right.
Qed.

Lemma shopStep_in_sync (s : Shop) (ev : ShopEvent) :
  notificationsInSync s -> notificationsInSync (shopStep s ev).
Proof.
  intros S. destruct ev as [productId|].
  - destruct (cart s) as [c|] eqn:C.
    + destruct (shopStep_add_present productId s c C)
        as (c' & fresh & -> & Fn & Fi & _).
      destruct S as (T & N & D & B).
      unfold notificationsInSync.
      cbn [notifDivs notifications timeouts next_node].
      rewrite !map_app. cbn [map]. rewrite T, N, Fn, Fi.
      split; [reflexivity|]. split; [reflexivity|]. split.
      * apply NoDup_snoc; [exact D|]. intros I.
        rewrite Forall_forall in B. specialize (B _ I). lia.
      * apply Forall_app. split.
        -- eapply Forall_impl; [|exact B]. cbn. intros; lia.
        -- constructor; [lia | constructor].
    + cbn [shopStep]. rewrite (addToCart_absent _ _ C). exact S.
  - cbn [shopStep]. destruct (notifDivs s) as [|d rest] eqn:E.
    + assert (N : timeouts s = [])
        by (destruct S as (_ & N & _); now rewrite E in N).
      unfold timeoutFires. now rewrite N.
    + rewrite (timeoutFires_in_sync s d rest S E).
      destruct S as (T & N & D & B). rewrite E in N. cbn in N.
      rewrite <- N in D, B.
      unfold notificationsInSync.
      cbn [notifDivs notifications timeouts next_node].
      split; [reflexivity|]. split; [reflexivity|]. split.
      * now inversion D.
      * now inversion B.
Qed.

Lemma shopRun_in_sync (evs : list ShopEvent) (s : Shop) :
  notificationsInSync s -> notificationsInSync (shopRun s evs).
Proof.
  revert s. induction evs as [|ev evs IH]; intros s S; [exact S|].
  cbn [shopRun fold_left]. apply IH. now apply shopStep_in_sync.
Qed.

(** X6: the notifications on the page are always the live ones.  Started
    in sync, after any run of adds and timeouts the texts of the
    notification [div]s attached to the body are exactly the array
    [notifications], in order, and each [div] has exactly one timeout
    pending: [notifications.shift()] always drops the text of the [div] the
    same callback removes. *)
Theorem notifications_stay_in_sync (s : Shop) (evs : list ShopEvent)
    (S : notificationsInSync s) :
  notificationsInSync (shopRun s evs).
Proof.
  revert s S. induction evs as [|ev evs IH]; intros s S.
  - exact S.
  - change (shopRun s (ev :: evs)) with (shopRun (shopStep s ev) evs).
    apply IH. destruct ev as [productId|].
    + now apply (shopStep_in_sync s (AddToCart productId)).
    + now apply (shopStep_in_sync s Timeout).
Qed.

Lemma notifications_stay_in_sync_witness :
  notificationsInSync
    (shopRun shopLoaded [AddToCart "p1"; AddToCart "p2"; Timeout]).
Proof.
  apply (notifications_stay_in_sync shopLoaded).
  repeat split; constructor.
Defined.

End ShopFacts.

Section CartFacts.

Import Storefront.

Lemma entries_snoc (items : list string) (item : string) :
  fold_right String.append "" (map cartEntry (items ++ [item])%list)
  = fold_right String.append "" (map cartEntry items) ++ cartEntry item.
Proof.
  induction items as [|x items IH]; cbn [List.app map fold_right].
  - now rewrite append_nil_r.
  - now rewrite IH, append_assoc.
Qed.

(** X7: with the cart element in the document and items of plain text
    (letters, digits, [-] and [_], which markup leaves as they are),
    [updateCart] writes the cart from [cartItems] alone: whatever markup the
    cart held, it ends up holding one entry per item, in order, and nothing
    else; running it again changes nothing, and it never touches
    [cartItems]. *)
Theorem updateCart_renders_items (s : Shop) (c : Element)
    (C : cart s = Some c)
    (P : Forall (fun item => plainText item = true) (cartItems s)) :
  (exists c',
      cart (snd (updateCart s)) = Some c' /\
      node c' = node c /\
      innerHTML c'
      = fold_right String.append "" (map cartEntry (cartItems s))) /\
  cartItems (snd (updateCart s)) = cartItems s /\
  updateCart (snd (updateCart s)) = updateCart s.
Proof.
  rewrite (updateCart_present s c C). cbn [snd]. split; [|split].
  - eexists. split; [reflexivity|]. now split.
  - reflexivity.
  - erewrite updateCart_present by reflexivity.
    cbn [cartItems notifications notifDivs timeouts next_node node style].
    now rewrite (cart_style_settled (style c)).
Qed.

Lemma updateCart_renders_items_witness :
  exists c',
    cart (snd (updateCart
                 (mkShop ["p1"; "p2"] []
                         (Some (mkElement 0 [] "<b>stale</b>")) [] [] 1)))
    = Some c' /\
    innerHTML c' = cartEntry "p1" ++ cartEntry "p2".
Proof.
  destruct (proj1 (updateCart_renders_items
                     (mkShop ["p1"; "p2"] []
                             (Some (mkElement 0 [] "<b>stale</b>")) [] [] 1)
                     (mkElement 0 [] "<b>stale</b>") eq_refl
                     (Forall_cons "p1" eq_refl
                        (Forall_cons "p2" eq_refl (Forall_nil _)))))
    as (c' & E & _ & H).
  exists c'. split; [exact E|]. rewrite H. cbn [cartItems map fold_right].
  now rewrite append_nil_r.
Defined.

(** X8: with the cart element in the document and product ids of plain
    text (letters, digits, [-] and [_]), [addToCart] returns normally, appends the product to [cartItems] even when it is already
    there (one more occurrence, no quantities), leaves the cart holding the
    entries of the earlier items followed by the new entry, and announces
    [Added to cart!] in one new notification placed 60 pixels lower for
    each notification now live. *)
Theorem addToCart_appends_entry (s : Shop) (productId : string) (c : Element)
    (C : cart s = Some c)
    (P : Forall (fun item => plainText item = true)
                (cartItems s ++ [productId])%list) :
  fst (addToCart productId s) = Returns tt /\
  cartItems (snd (addToCart productId s))
  = (cartItems s ++ [productId])%list /\
  count_occ string_dec (cartItems (snd (addToCart productId s))) productId
  = S (count_occ string_dec (cartItems s) productId) /\
  (exists c',
      cart (snd (addToCart productId s)) = Some c' /\
      innerHTML c'
      = fold_right String.append "" (map cartEntry (cartItems s))
        ++ cartEntry productId) /\
  notifications (snd (addToCart productId s))
  = (notifications s ++ ["Added to cart!"])%list /\
  (exists fresh,
      notifDivs (snd (addToCart productId s))
      = (notifDivs s ++ [fresh])%list /\
      innerHTML fresh = "Added to cart!" /\
      topOf fresh = Some (px (S (List.length (notifications s)) * 60))).
Proof.
  destruct (shopStep_add_present productId s c C)
    as (c' & fresh & E & _ & Fi & Ft & Ch).
  cbn [shopStep] in E.
  split; [now rewrite (addToCart_present _ _ _ C)|].
  rewrite E. cbn [cartItems cart notifications notifDivs].
  split; [reflexivity|]. split.
  - rewrite count_occ_app. cbn [count_occ].
    destruct (string_dec productId productId) as [_|N]; [lia | now elim N].
  - split; [|split; [reflexivity|]].
    + exists c'. split; [reflexivity|]. now rewrite Ch, entries_snoc.
    + exists fresh. now repeat split.
Qed.

Lemma addToCart_appends_entry_witness :
  cartItems (snd (addToCart "p1" shopLoaded)) = ["p1"].
Proof.
  exact (proj1 (proj2 (addToCart_appends_entry shopLoaded "p1"
                         (mkElement 0 [] "") eq_refl
                         (Forall_cons "p1" eq_refl (Forall_nil _))))).
Defined.

(** X9: nothing the page defines ever takes an item out of the cart: after
    any run of clicks and timeouts [cartItems] is what it was, followed by
    every product clicked, in click order; a click counts even when
    [addToCart] throws. *)
Theorem cartItems_only_grow (s : Shop) (evs : list ShopEvent) :
  cartItems (shopRun s evs)
  = (cartItems s
     ++ flat_map (fun ev => match ev with
                            | AddToCart productId => [productId]
                            | Timeout => []
                            end) evs)%list.
Proof.
  revert s. induction evs as [|ev evs IH]; intros s.
  - cbn. now rewrite app_nil_r.
  - cbn [shopRun fold_left flat_map]. fold (shopRun (shopStep s ev) evs).
    rewrite IH, app_assoc. f_equal.
    destruct ev as [productId|]; cbn [shopStep].
    + destruct (cart s) as [c|] eqn:C.
      * destruct (shopStep_add_present productId s c C) as (c' & d & E & _).
        cbn [shopStep] in E. now rewrite E.
      * now rewrite (addToCart_absent _ _ C).
    + rewrite app_nil_r. unfold timeoutFires.
      now destruct (timeouts s).
Qed.

(** X10: on a page without the cart element every click on [Add to Cart]
    throws after the product has been recorded: whatever the run of clicks
    and timeouts, the element stays missing, no notification is added (the
    live ones can only expire), and yet [cartItems] has grown by every
    click. *)
Theorem addToCart_without_cart_element (s : Shop) (evs : list ShopEvent)
    (C : cart s = None) :
  cart (shopRun s evs) = None /\
  List.length (notifications (shopRun s evs))
  <= List.length (notifications s) /\
  incl (notifDivs (shopRun s evs)) (notifDivs s) /\
  (forall productId,
      fst (addToCart productId (shopRun s evs)) = Throws) /\
  List.length (cartItems (shopRun s evs))
  = List.length (cartItems s)
    + List.length (filter (fun ev => match ev with
                                     | AddToCart _ => true
                                     | Timeout => false
                                     end) evs).
Proof.
  revert s C. induction evs as [|ev evs IH]; intros s C.
  - cbn [shopRun fold_left filter List.length]. repeat split; auto.
    + apply incl_refl.
    + intros productId. now rewrite (addToCart_absent _ _ C).
  - cbn [shopRun fold_left]. fold (shopRun (shopStep s ev) evs).
    destruct ev as [productId|]; cbn [shopStep filter].
    + rewrite (addToCart_absent _ _ C). cbn [snd].
      destruct (IH (pushCartItem productId s) C) as (H1 & H2 & H3 & H4 & H5).
      repeat split; auto. rewrite H5. cbn [pushCartItem cartItems List.length].
      rewrite length_app. cbn [List.length]. lia.
    + assert (C' : cart (timeoutFires s) = None)
        by (unfold timeoutFires; now destruct (timeouts s)).
      destruct (IH (timeoutFires s) C') as (H1 & H2 & H3 & H4 & H5).
      split; [exact H1|]. split; [|split; [|split; [exact H4|]]].
      * etransitivity; [exact H2|]. unfold timeoutFires.
        destruct (timeouts s); cbn [notifications]; [lia|].
        destruct (notifications s); cbn; lia.
      * intros d I. specialize (H3 d I). unfold timeoutFires in H3.
        destruct (timeouts s); cbn [notifDivs] in H3; [exact H3|].
        now apply filter_In in H3.
      * rewrite H5. unfold timeoutFires.
        now destruct (timeouts s).
Qed.

Lemma addToCart_without_cart_element_witness :
  cart (shopRun (mkShop [] [] None [] [] 0) [AddToCart "p1"; AddToCart "p2"])
  = None /\
  List.length
    (cartItems
       (shopRun (mkShop [] [] None [] [] 0) [AddToCart "p1"; AddToCart "p2"]))
  = 2.
Proof.
  destruct (addToCart_without_cart_element (mkShop [] [] None [] [] 0)
              [AddToCart "p1"; AddToCart "p2"] eq_refl)
    as (H1 & _ & _ & _ & H5).
  split; [exact H1 | exact H5].
Defined.

End CartFacts.

Section NotificationPlacement.

Import Storefront.

Lemma append_cancel_r (a b c : string) : a ++ c = b ++ c -> a = b.
Proof.
  intros E.
  assert (L : String.length a = String.length b).
  { apply (f_equal String.length) in E. rewrite !length_append in E. lia. }
  now destruct (append_same_length _ _ _ _ E L).
Qed.

Lemma px_injective (n m : nat) : px n = px m -> n = m.
Proof.
  unfold px. intros E. apply append_cancel_r in E.
  apply (f_equal NilEmpty.uint_of_string) in E.
  rewrite !NilEmpty.usu in E. injection E as E.
  apply (f_equal Nat.of_uint) in E. now rewrite !Unsigned.of_to in E.
Qed.

(** Clicks only, on a page with the cart element: the notifications they
    add come after the ones that were live, one per click, at 60 pixels
    times the number live when each was added. *)
Lemma clicks_stack (products : list string) (s : Shop) (c : Element) :
  cart s = Some c ->
  exists added,
    notifDivs (shopRun s (map AddToCart products))
    = (notifDivs s ++ added)%list /\
    map topOf added
    = map (fun i => Some (px (i * 60)))
          (seq (S (List.length (notifications s))) (List.length products)).
Proof.
  revert s c. induction products as [|p products IH]; intros s c C.
  - exists []. cbn. now rewrite app_nil_r.
  - cbn [map shopRun fold_left].
    fold (shopRun (shopStep s (AddToCart p)) (map AddToCart products)).
    destruct (shopStep_add_present p s c C)
      as (c' & fresh & E & _ & _ & Ft & _).
    destruct (IH (shopStep s (AddToCart p)) c') as (added & A & T).
    { now rewrite E. }
    exists (fresh :: added). rewrite A. rewrite E at 1.
    cbn [notifDivs]. rewrite <- app_assoc. split; [reflexivity|].
    cbn [map List.length seq]. rewrite Ft. f_equal.
    rewrite T, E. cbn [notifications]. rewrite length_app. cbn [List.length].
    now rewrite Nat.add_1_r.
Qed.

(** X11: while no notification expires, the notifications stack: on a page
    with the cart element and no live notification, after any number of
    clicks the notification [div]s sit at 60px, 120px, 180px, ... in the
    order of the clicks, no two at the same place. *)
Theorem notifications_stack_without_expiry
    (s : Shop) (c : Element) (products : list string)
    (C : cart s = Some c) (N : notifications s = []) (D : notifDivs s = []) :
  map topOf (notifDivs (shopRun s (map AddToCart products)))
  = map (fun i => Some (px (i * 60))) (seq 1 (List.length products)) /\
  NoDup (map topOf (notifDivs (shopRun s (map AddToCart products)))).
Proof.
  destruct (clicks_stack products s c C) as (added & A & T).
  rewrite D in A. rewrite N in T. cbn in A, T.
  rewrite A, T. split; [reflexivity|].
  apply Injective_map_NoDup; [|apply seq_NoDup].
  intros i j [= E]. apply px_injective in E. nia.
Qed.

Lemma notifications_stack_without_expiry_witness :
  map topOf
    (notifDivs (shopRun shopLoaded [AddToCart "p1"; AddToCart "p2"]))
  = [Some "60px"; Some "120px"].
Proof.
  exact (proj1 (notifications_stack_without_expiry shopLoaded
                  (mkElement 0 [] "") ["p1"; "p2"]
                  eq_refl eq_refl eq_refl)).
Defined.

(** X12: once a notification has expired the stacking breaks.  With at
    least two notifications live, the last of them placed by the count at
    its time, a timeout followed by a click puts the new notification at
    the very place of the last live one: both are then on the page, one
    over the other. *)
Theorem notification_overlaps_after_expiry
    (s : Shop) (productId : string) (c first last : Element)
    (between : list Element)
    (S : notificationsInSync s) (C : cart s = Some c)
    (D : notifDivs s = first :: (between ++ [last])%list)
    (T : topOf last = Some (px (List.length (notifications s) * 60))) :
  exists fresh,
    notifDivs (shopRun s [Timeout; AddToCart productId])
    = (between ++ [last; fresh])%list /\
    node fresh <> node last /\
    topOf fresh = topOf last.
Proof.
  cbn [shopRun fold_left shopStep].
  pose proof (timeoutFires_in_sync s first _ S D) as F.
  assert (C' : cart (timeoutFires s) = Some c) by now rewrite F.
  destruct (shopStep_add_present productId (timeoutFires s) c C')
    as (c' & fresh & E & Fn & _ & Ft & _).
  cbn [shopStep] in E. exists fresh. rewrite E. cbn [notifDivs].
  rewrite F. cbn [notifDivs notifications next_node] in *.
  split; [now rewrite <- app_assoc|].
  destruct S as (Tx & Nd & _ & B).
  split.
  - rewrite Fn, F. cbn [next_node]. rewrite <- Nd, D in B.
    rewrite Forall_forall in B.
    assert (I : In (node last) (map node (first :: between ++ [last]))).
    { apply in_map. right. apply in_or_app. right. now left. }
    specialize (B _ I). lia.
  - rewrite Ft, T, F. cbn [notifications]. rewrite <- Tx, D.
    cbn [map List.length]. now rewrite !length_map.
Qed.

Lemma notification_overlaps_after_expiry_witness :
  map topOf
    (notifDivs
       (shopRun (shopRun shopLoaded [AddToCart "p1"; AddToCart "p2"])
                [Timeout; AddToCart "p3"]))
  = [Some "120px"; Some "120px"].
Proof.
  destruct (notification_overlaps_after_expiry
              (shopRun shopLoaded [AddToCart "p1"; AddToCart "p2"]) "p3"
              (mkElement 0
                 [("position", "fixed"); ("right", "0"); ("top", "0");
                  ("width", "300px"); ("height", "100%");
                  ("backgroundColor", "#f0f0f0"); ("padding", "20px");
                  ("overflowY", "auto")]
                 (cartEntry "p1" ++ cartEntry "p2"))
              (mkElement 1
                 [("position", "fixed"); ("top", "60px"); ("right", "20px");
                  ("backgroundColor", "yellow"); ("padding", "10px");
                  ("border", "1px solid black")]
                 "Added to cart!")
              (mkElement 2
                 [("position", "fixed"); ("top", "120px"); ("right", "20px");
                  ("backgroundColor", "yellow"); ("padding", "10px");
                  ("border", "1px solid black")]
                 "Added to cart!")
              []
              (shopRun_in_sync [AddToCart "p1"; AddToCart "p2"] shopLoaded
                 (conj eq_refl (conj eq_refl
                    (conj (NoDup_nil nat) (Forall_nil _)))))
              eq_refl eq_refl eq_refl)
    as (fresh & E & _ & T).
  rewrite E. cbn [List.app map]. now rewrite T.
Defined.

End NotificationPlacement.

(** * The shell scripts and the webpack hook *)

Section ScriptFacts.

Import Scripts.

(** X13: [check_files.sh] prints, between its two header lines and its
    closing rule, one line for each of the twelve files of its list, in
    list order; the line says [exists] exactly when the path is a regular
    file, so a directory of that name is reported as missing like an absent
    path. *)
Theorem check_files_reports_every_file (fs : FS) :
  List.length (check_files fs) = 15 /\
  (forall i file,
      nth_error files i = Some file ->
      nth_error (check_files fs) (2 + i) = Some (report fs file)) /\
  (forall file,
      report fs file = "✅ " ++ file ++ " exists" <->
      exists content, fs file = Some (RegularFile content)) /\
  (forall file,
      fs file = Some Directory \/ fs file = None ->
      report fs file = "❌ " ++ file ++ " is missing").
Proof.
  split; [reflexivity|]. split; [|split].
  - intros i file H. unfold check_files. cbn [Nat.add nth_error List.app].
    rewrite nth_error_app1.
    + now apply map_nth_error.
    + rewrite length_map. apply nth_error_Some. congruence.
  - intros file. unfold report, test_f.
    destruct (fs file) as [[content| | |target]|]; split;
      try discriminate; eauto; intros [content' [=]].
  - intros file [H|H]; unfold report, test_f; now rewrite H.
Qed.

(** X14: the webpack hook of [next.config.js] points the alias
    [monaco-editor] at [@monaco-editor/react], overriding an alias of that
    name, and keeps every other alias as it was; a missing alias table
    counts as empty; a second pass over its own result changes nothing.
    Without [config.resolve] it throws. *)
Theorem webpack_sets_one_alias (config : Config) :
  match resolve config with
  | None => webpack config = None
  | Some alias =>
      exists table,
        webpack config = Some (mkConfig (Some (Some table))) /\
        Props.get "monaco-editor" table = Some "@monaco-editor/react" /\
        (forall k,
            k <> "monaco-editor" ->
            Props.get k table
            = Props.get k (match alias with Some t => t | None => [] end)) /\
        webpack (mkConfig (Some (Some table)))
        = Some (mkConfig (Some (Some table)))
  end.
Proof.
  unfold webpack. destruct (resolve config) as [alias|]; [|reflexivity].
  eexists. split; [reflexivity|]. split; [apply props_get_set_same|]. split.
  - intros k N. now apply props_get_set_other.
  - cbn [resolve]. now rewrite props_set_set.
Qed.


End ScriptFacts.

(** * More of the component *)

Section ComponentExtras.

Import HTMLModernizer.

(** X16: one analysis at a time.  From the moment [analyzeHtml] has raised
    [isAnalyzing] the analyze button is disabled and a click on it does
    nothing; when the request settles, on an answer or on a failure, the
    flag is down again and the button is disabled only if the source is
    empty. *)
Theorem analysis_is_not_reentrant
    (endpoint : string -> list Improvement -> Response string)
    (st : State) (resp : Response Catalog) :
  analyzeButtonDisabled (render (analyzeHtml_begin st)) = true /\
  analyzeButtonBusy (render (analyzeHtml_begin st)) = true /\
  step endpoint (analyzeHtml_begin st) (Analyze resp)
  = analyzeHtml_begin st /\
  analyzeButtonBusy (render (analyzeHtml_settle resp st)) = false /\
  analyzeButtonDisabled (render (analyzeHtml_settle resp st))
  = (html st =? "").
Proof.
  assert (D : analyzeDisabled (analyzeHtml_begin st) = true)
    by (unfold analyzeDisabled; cbn; apply orb_true_r).
  split; [exact D|]. split; [reflexivity|]. split.
  - cbn [step]. now rewrite D.
  - split; [now destruct resp|].
    cbn [render analyzeButtonDisabled]. unfold analyzeDisabled.
    destruct resp; cbn; apply orb_false_r.
Qed.

(** X17: editing the source does not refresh the improved document.  Once
    an application has answered with a non-empty document, typing in the
    textarea changes the Original pane only: the Improved pane keeps
    showing the document computed from the earlier source, and the
    selection stays. *)
Theorem edit_keeps_improved_document
    (endpoint : string -> list Improvement -> Response string)
    (st : State) (text doc : string)
    (E : improvedHtml st = Some doc) (N : doc <> "") :
  html (step endpoint st (Edit text)) = text /\
  textarea (render (step endpoint st (Edit text))) = text /\
  improvedSrcDoc (step endpoint st (Edit text)) = doc /\
  improvedSrcDoc st = doc /\
  selectedImprovements (step endpoint st (Edit text))
  = selectedImprovements st.
Proof.
  cbn [step]. repeat split.
  - apply improvedSrcDoc_nonempty; [exact E | exact N].
  - now apply improvedSrcDoc_nonempty.
Qed.

Lemma edit_keeps_improved_document_witness :
  improvedSrcDoc
    (step apply_improvements_endpoint Sample.chosen (Edit "<h2>Bye</h2>"))
  = "<p class='intro'>Hi</p>".
Proof.
  refine (proj1 (proj2 (proj2
            (edit_keeps_improved_document apply_improvements_endpoint
               Sample.chosen "<h2>Bye</h2>" "<p class='intro'>Hi</p>"
               eq_refl _)))).
  discriminate.
Defined.

(** X18: a failed application changes nothing on screen.  When the request
    of the selection effect throws (the fetch rejects, the body is not
    JSON, or it parses to [null]), the transformed document and everything
    the component renders are what they were; the failure is one line on
    the console. *)
Theorem failed_application_changes_nothing
    (endpoint : string -> list Improvement -> Response string) (st : State)
    (T : throws (endpoint (html st) (Object_values (selectedImprovements st)))
         = true) :
  improvedHtml (selectionEffect endpoint st) = improvedHtml st /\
  render (selectionEffect endpoint st) = render st /\
  (selectedImprovements st <> [] ->
   console (selectionEffect endpoint st)
   = (console st ++ ["Failed to apply improvements:"])%list).
Proof.
  unfold selectionEffect, applyImprovements.
  destruct (endpoint _ _); try discriminate;
    destruct (selectedImprovements st) as [|kv sel] eqn:S; cbn;
    repeat split; try (intros H; now elim H);
    destruct st; cbn in *; now rewrite ?S.
Qed.

Lemma failed_application_changes_nothing_witness :
  render (selectionEffect (fun _ _ => FetchRejected) Sample.chosen)
  = render Sample.chosen.
Proof.
  exact (proj1 (proj2 (failed_application_changes_nothing
                         (fun _ _ => FetchRejected) Sample.chosen eq_refl))).
Defined.

(** X19: an answer without a document empties the improved pane.  When
    something is selected and the endpoint's body parses but holds no
    [improved_html] (or an empty one), [improvedHtml] becomes falsy and the
    Improved pane shows the source again, under a title that still counts
    the selected changes. *)
Theorem answer_without_document_shows_original
    (endpoint : string -> list Improvement -> Response string) (st : State)
    (S : selectedImprovements st <> [])
    (A : endpoint (html st) (Object_values (selectedImprovements st))
         = Json None \/
         endpoint (html st) (Object_values (selectedImprovements st))
         = Json (Some "")) :
  improvedSrcDoc (selectionEffect endpoint st) = html st /\
  selectedImprovements (selectionEffect endpoint st)
  = selectedImprovements st /\
  0 < List.length (Object_keys (selectedImprovements (selectionEffect endpoint st))).
Proof.
  destruct A as [A|A]; rewrite (selectionEffect_answer _ _ _ S A);
    (split; [reflexivity|]); (split; [reflexivity|]);
    cbn [selectedImprovements setImprovedHtml];
    destruct (selectedImprovements st); [now elim S | cbn; lia
                                        | now elim S | cbn; lia].
Qed.

Lemma answer_without_document_shows_original_witness :
  improvedSrcDoc (selectionEffect (fun _ _ => Json None) Sample.chosen)
  = "<p>Hi</p>".
Proof.
  refine (proj1 (answer_without_document_shows_original
                   (fun _ _ => Json None) Sample.chosen _ (or_introl eq_refl))).
  discriminate.
Defined.

Lemma selected_In_keys (i : string) (sel : Selection) :
  selected i sel = true -> In i (Object_keys sel).
Proof.
  unfold selected, Object_keys. intros H.
  apply existsb_exists in H as ([k r] & I & E). cbn in E.
  apply String.eqb_eq in E as <-. now apply (in_map fst) in I.
Qed.

Lemma checked_ids_NoDup (keep : Improvement -> bool) (catalog : Catalog) :
  NoDup (map id catalog) -> NoDup (map id (filter keep catalog)).
Proof.
  induction catalog as [|r rest IH]; intros D; cbn; [constructor|].
  inversion D as [|i ids Fresh D']. subst.
  destruct (keep r); cbn; [|now apply IH].
  constructor; [|now apply IH].
  intros I. apply Fresh. apply in_map_iff in I as (r' & E & I).
  apply filter_In in I as [I _]. rewrite <- E. now apply in_map.
Qed.

(** X20: while the catalog's ids are unique and none of them names a
    property every object inherits ([constructor], [toString], ...), the
    number in the title of the Improved pane, the count of selected ids, is
    at least the number of cards shown with a check mark.  (A card whose id
    is an inherited property name is checked with nothing selected.) *)
Theorem change_count_covers_checked_cards
    (st : State) (catalog : Catalog) (shown : list (Improvement * bool))
    (C : improvements st = Some catalog)
    (U : NoDup (map id catalog))
    (P : Forall (fun r => inheritedProperty (id r) = false) catalog)
    (R : cards (render st) = Some shown) :
  List.length (filter snd shown)
  <= List.length (Object_keys (selectedImprovements st)).
Proof.
  cbn [render cards] in R. rewrite C in R. injection R as <-.
  assert (L : List.length
                (filter snd
                   (map (fun r => (r, checked (id r) (selectedImprovements st)))
                        catalog))
              = List.length
                  (map id (filter (fun r => selected (id r)
                                              (selectedImprovements st))
                                  catalog))).
  { rewrite length_map. clear C U.
    induction catalog as [|r rest IH]; [reflexivity|].
    inversion P as [|r' rest' Pr Prest]. subst. cbn. unfold checked at 1.
    rewrite Pr, orb_false_r.
    destruct (selected (id r) (selectedImprovements st)); cbn;
      now rewrite (IH Prest). }
  rewrite L. apply NoDup_incl_length.
  - now apply checked_ids_NoDup.
  - intros i I. apply in_map_iff in I as (r & <- & I).
    apply filter_In in I as [_ I]. now apply selected_In_keys.
Qed.

Lemma change_count_covers_checked_cards_witness :
  List.length
    (filter snd
       [(Sample.heading, checked "r7" [("r1", Sample.intro)])])
  <= 1.
Proof.
  exact (change_count_covers_checked_cards
           (setImprovements (Some [Sample.heading]) Sample.chosen)
           [Sample.heading]
           [(Sample.heading, checked "r7" [("r1", Sample.intro)])]
           eq_refl
           (NoDup_cons "r7" (fun H : In "r7" [] => H) (NoDup_nil string))
           (Forall_cons Sample.heading eq_refl (Forall_nil _))
           eq_refl).
Defined.

End ComponentExtras.

(** * The session as the component stands

    No handler of the sources writes [selectedImprovements]: the only call
    that could, [toggleImprovement], is not defined.  So in every session
    the selection is empty and no application is ever requested. *)

Section ShippedSession.

Import HTMLModernizer.

Variable endpoint : string -> list Improvement -> Response string.





End ShippedSession.

Section SessionClaims.

Import HTMLModernizer.











End SessionClaims.
